(** * mikrotik-layer: connection manager, traffic monitor and streaming handler

    A shallow embedding of [services/mikrotik_service.go] (the
    [MikrotikService] connection manager and the traffic monitor), of
    [repository/router.go] (the router registry, as far as the service
    uses it) and of the WebSocket handler [MonitorTrafficWS], with the
    properties of the connection manager and of the telemetry path.

    Go's effects are modelled by a state monad over a [World]: the service's
    connection map, the registry, the client handles handed out by the
    RouterOS library, the open [Listen] subscriptions and a log of the
    effects performed (lock operations, registry calls, network calls).
    What the network and the device answer is an input, the [Env]. *)

From stdpp Require Import gmap strings list pretty.

Open Scope Z_scope.
Open Scope string_scope.
Open Scope list_scope.

(** ** models/router.go *)

Module models.

Record Router := mkRouter {
  ID : Z;
  Name : string;
  Hostname : string;
  Username : string;
  Password : string;
  Port : Z;
  IsActive : bool;
  LastSeen : option Z;
  Status : string;
  Version : option string;
  Uptime : option string
}.

(** [RouterStatusUpdate]; the fields carry a prefix because [Router] has
    fields of the same names. *)
Record RouterStatusUpdate := mkStatusUpdate {
  upd_Status : string;
  upd_Version : option string;
  upd_Uptime : option string;
  upd_LastSeen : option Z
}.

End models.

(** ** repository/router.go

  The registry is the [routers] table keyed by [id]. *)

Module repository.
Import models.

Inductive RepoError := RepoNotFound.

(** [GetByID]: [SELECT * FROM routers WHERE id = ?]; no row gives
    the error "router not found". *)
Definition GetByID (id : Z) (db : gmap Z Router) : Router + RepoError :=
  match db !! id with
  | Some r => inl r
  | None => inr RepoNotFound
  end.

(** [UpdateStatus]: [UPDATE routers SET status, version, uptime,
    last_seen, updated_at WHERE id = ?]; [last_seen] is the given one or
    the current time. A missing row is left missing. *)
Definition UpdateStatus (now : Z) (id : Z) (status : RouterStatusUpdate)
    (db : gmap Z Router) : gmap Z Router :=
  let lastSeen := match upd_LastSeen status with
                  | Some t => t
                  | None => now
                  end in
  alter (fun r =>
    {| ID := ID r; Name := Name r; Hostname := Hostname r;
       Username := Username r; Password := Password r; Port := Port r;
       IsActive := IsActive r;
       LastSeen := Some lastSeen;
       Status := upd_Status status;
       Version := upd_Version status;
       Uptime := upd_Uptime status |}) id db.

End repository.

(** ** The RouterOS client library, at its boundary *)

Module routeros.

(** A client handle ([*routeros.Client]); handles are numbered in the
    order the library creates them. *)
Definition Client := nat.

(** A reply sentence: its word ("!re", "!trap", "!done", ...) and its
    attribute map. *)
Record Sentence := mkSentence {
  Word : string;
  Map : gmap string string
}.

(** Go's [m[key]] on a [map[string]string]: the empty string when the key
    is absent. *)
Definition index (m : gmap string string) (key : string) : string :=
  default "" (m !! key).

(** A reply to [Run]/[RunArgs]: the "!re" sentences. *)
Record Reply := mkReply { Re : list Sentence }.

End routeros.

(** ** services/mikrotik_service.go *)

Module services.
Import models routeros.

Inductive error :=
| ErrTcpDialFailed (e : string)
| ErrClientCreationFailed (e : string)
| ErrLoginFailed (e : string)
| ErrConnectionTimeout (timeout : Z)
| ErrRouterNotFound (e : repository.RepoError)
| ErrRouterNotActive
| ErrFailedToConnect (e : error)
| ErrNotConnected
| ErrNotConnectedBecause (e : error)
| ErrConnectionUnhealthy
| ErrFailedToStartMonitoring (e : string)
| ErrNoSystemInfo
| ErrDevice (e : string)
| ErrNilConnection.


(** [MikrotikConnection] (its [mu] is modelled apart, in
    [SessionLock]). *)
Record MikrotikConnection := mkConnection {
  RouterID : Z;
  Router : models.Router;
  Client : routeros.Client;
  LastPing : Z;
  IsHealthy : bool
}.

(** [TrafficStats] *)
Record TrafficStats := mkTrafficStats {
  ts_RouterID : Z;
  InterfaceName : string;
  RxBytes : string;
  TxBytes : string;
  RxPackets : string;
  TxPackets : string;
  RxBitsPerSec : string;
  TxBitsPerSec : string;
  Timestamp : Z
}.

Record SystemInfo := mkSystemInfo {
  si_Version : string;
  si_Uptime : string
}.

(** Which case of a two-way [select] is taken. *)
Inductive SelectCase := ResultReady | CtxDone.

(** What the outside world does: the clock ([time.Now()], one instant for
    a whole run), the outcome of each step of a dial, after how many
    seconds the dialling goroutine delivers its result ([None]: never),
    which case [select] takes when both are ready, the device's reply to
    a command and whether it accepts a [Listen]. *)
Record Env := mkEnv {
  now : Z;
  tcp_dial : string -> option string;
  new_client : string -> option string;
  login : string -> string -> string -> option string;
  dial_elapsed : string -> option Z;
  select_tie : SelectCase;
  run_args : routeros.Client -> list string -> Reply + string;
  listen_args : routeros.Client -> list string -> option string
}.

(** The effects the service performs, in the order it performs them. *)
Inductive Event :=
| EvMuLock | EvMuUnlock | EvMuRLock | EvMuRUnlock
| EvRepoGetByID (id : Z)
| EvRepoUpdateStatus (id : Z) (status : string)
| EvDial (address : string)
| EvClientClose (c : routeros.Client)
| EvRunArgs (c : routeros.Client) (words : list string)
| EvListen (c : routeros.Client) (words : list string)
| EvListenCancel (l : nat).

(** An open [Listen] subscription on a device: the handle the library
    returned, the router and client it was opened on, the interface it
    monitors. *)
Record Subscription := mkSubscription {
  s_handle : nat;
  s_router : Z;
  s_client : routeros.Client;
  s_interface : string
}.

(** A running goroutine of [MonitorInterfaceTrafficWithContext]: it
    reads the subscription [m_listen] and feeds one [callback], the
    consumer registered for [(m_router, m_interface)]. *)
Record Monitor := mkMonitor {
  m_listen : nat;
  m_router : Z;
  m_interface : string
}.

(** The service ([connections], [repo]) and the world around it. *)
Record World := mkWorld {
  connections : gmap Z MikrotikConnection;
  repo : gmap Z models.Router;
  next_client : nat;
  closed_clients : list routeros.Client;
  open_listens : list Subscription;
  monitors : list Monitor;
  next_listen : nat;
  trace : list Event
}.

(** *** The monad of the service's methods *)

Definition Go (A : Type) : Type := World -> A * World.

#[global] Instance Go_ret : MRet Go := fun A (a : A) (w : World) => (a, w).
#[global] Instance Go_bind : MBind Go :=
  fun A B (f : A -> Go B) (m : Go A) (w : World) =>
    let '(a, w') := m w in f a w'.

Definition get_world : Go World := fun w => (w, w).

Definition emit (e : Event) : Go unit := fun w =>
  (tt, mkWorld (connections w) (repo w) (next_client w) (closed_clients w)
         (open_listens w) (monitors w) (next_listen w) (trace w ++ [e])).

Definition set_connections (f : gmap Z MikrotikConnection -> gmap Z MikrotikConnection)
    : Go unit := fun w =>
  (tt, mkWorld (f (connections w)) (repo w) (next_client w) (closed_clients w)
         (open_listens w) (monitors w) (next_listen w) (trace w)).

Definition set_repo (f : gmap Z models.Router -> gmap Z models.Router)
    : Go unit := fun w =>
  (tt, mkWorld (connections w) (f (repo w)) (next_client w) (closed_clients w)
         (open_listens w) (monitors w) (next_listen w) (trace w)).

(** [ms.mu.Lock(); defer ms.mu.Unlock()] around a method body: the lock
    is released when the body returns, wherever it returns. *)
Definition with_mu_Lock {A} (body : Go A) : Go A :=
  _ ← emit EvMuLock; r ← body; _ ← emit EvMuUnlock; mret r.

(** [ms.mu.RLock(); ...; ms.mu.RUnlock()] around a map read. *)
Definition with_mu_RLock {A} (body : Go A) : Go A :=
  _ ← emit EvMuRLock; r ← body; _ ← emit EvMuRUnlock; mret r.

(** [ms.repo.GetByID] *)
Definition repo_GetByID (id : Z) : Go (models.Router + repository.RepoError) :=
  _ ← emit (EvRepoGetByID id);
  w ← get_world;
  mret (repository.GetByID id (repo w)).

(** [ms.repo.UpdateStatus]; its result is ignored by every caller. *)
Definition repo_UpdateStatus (env : Env) (id : Z) (status : RouterStatusUpdate)
    : Go unit :=
  _ ← emit (EvRepoUpdateStatus id (upd_Status status));
  set_repo (repository.UpdateStatus (now env) id status).

(** [client.Close()] *)
Definition mark_closed (c : routeros.Client) : Go unit := fun w =>
  (tt, mkWorld (connections w) (repo w) (next_client w) (closed_clients w ++ [c])
         (open_listens w) (monitors w) (next_listen w) (trace w)).

Definition client_Close (c : routeros.Client) : Go unit :=
  _ ← emit (EvClientClose c);
  mark_closed c.

(** [client.RunArgs] / [client.Run] *)
Definition client_RunArgs (env : Env) (c : routeros.Client) (words : list string)
    : Go (Reply + string) :=
  _ ← emit (EvRunArgs c words);
  mret (run_args env c words).

(** *** dialWithTimeout *)

Definition alloc_client : Go routeros.Client := fun w =>
  (next_client w,
   mkWorld (connections w) (repo w) (S (next_client w)) (closed_clients w)
     (open_listens w) (monitors w) (next_listen w) (trace w)).

(** The goroutine of [dialWithTimeout]: TCP dial, [routeros.NewClient],
    [Login]; the result it sends on [resultChan]. *)
Definition dial_worker (env : Env) (address username password : string)
    : Go (option routeros.Client * option error) :=
  match tcp_dial env address with
  | Some e => mret (None, Some (ErrTcpDialFailed e))
  | None =>
    match new_client env address with
    | Some e => mret (None, Some (ErrClientCreationFailed e))
    | None =>
      client ← alloc_client;
      match login env address username password with
      | Some e =>
        _ ← client_Close client;
        mret (None, Some (ErrLoginFailed e))
      | None => mret (Some client, None)
      end
    end
  end.

(** The [select] at the end of [dialWithTimeout]: the result channel
    against [ctx.Done()], for a worker that delivers after [t]. *)
Definition select_dial (elapsed : option Z) (timeout : Z) (tie : SelectCase)
    : SelectCase :=
  match elapsed with
  | None => CtxDone
  | Some t =>
    if (t <? timeout)%Z then ResultReady
    else if (timeout <? t)%Z then CtxDone
    else tie
  end.

Arguments select_dial : simpl never.

(** [dialWithTimeout]. A worker that delivers at all runs to its end
    whichever case wins; when the timeout wins, what it sent stays in the
    buffered channel and is dropped. *)
Definition dialWithTimeout (env : Env) (address username password : string)
    (timeout : Z) : Go (option routeros.Client * option error) :=
  _ ← emit (EvDial address);
  match dial_elapsed env address with
  | None => mret (None, Some (ErrConnectionTimeout timeout))
  | Some t =>
    res ← dial_worker env address username password;
    match select_dial (Some t) timeout (select_tie env) with
    | ResultReady => mret res
    | CtxDone => mret (None, Some (ErrConnectionTimeout timeout))
    end
  end.

(** *** getSystemInfo *)

Definition getSystemInfo (env : Env) (client : routeros.Client)
    : Go (option SystemInfo * option error) :=
  r ← client_RunArgs env client ["/system/resource/print"];
  mret (match r with
        | inr e => (None, Some (ErrDevice e))
        | inl reply =>
          match Re reply with
          | [] => (None, Some ErrNoSystemInfo)
          | re :: _ =>
            (Some {| si_Version := index (Map re) "version";
                     si_Uptime := index (Map re) "uptime" |}, None)
          end
        end).

(** *** ConnectRouter *)

Definition status_only (status : string) : RouterStatusUpdate :=
  {| upd_Status := status; upd_Version := None; upd_Uptime := None;
     upd_LastSeen := None |}.

Definition online_update (systemInfo : option SystemInfo) : RouterStatusUpdate :=
  match systemInfo with
  | Some info =>
    {| upd_Status := "online"; upd_Version := Some (si_Version info);
       upd_Uptime := Some (si_Uptime info); upd_LastSeen := None |}
  | None => status_only "online"
  end.

(** [fmt.Sprintf("%s:%d", router.Hostname, router.Port)] *)
Definition address_of (router : models.Router) : string :=
  Hostname router +:+ ":" +:+ pretty (Port router).

(** The part of [ConnectRouter] after the check of the connection map:
    load the descriptor, dial, record the status, store the
    connection. *)
Definition ConnectRouter_dial (env : Env) (routerID : Z) : Go (option error) :=
  r ← repo_GetByID routerID;
  match r with
  | inr err => mret (Some (ErrRouterNotFound err))
  | inl router =>
    if negb (IsActive router) then mret (Some ErrRouterNotActive)
    else
      let address := address_of router in
      d ← dialWithTimeout env address (Username router) (Password router) 20;
      match d with
      | (_, Some err) =>
        _ ← repo_UpdateStatus env routerID (status_only "error");
        mret (Some (ErrFailedToConnect err))
      | (Some client, None) =>
        si ← getSystemInfo env client;
        _ ← repo_UpdateStatus env routerID (online_update (fst si));
        _ ← set_connections (insert routerID
               {| RouterID := routerID; Router := router; Client := client;
                  LastPing := now env; IsHealthy := true |});
        mret None
      | (None, None) =>
        (* no client and no error: [dialWithTimeout] never returns this,
           see [dialWithTimeout_client_xor_error] *)
        mret None
      end
  end.

Definition ConnectRouter (env : Env) (routerID : Z) : Go (option error) :=
  with_mu_Lock (
    w ← get_world;
    match connections w !! routerID with
    | Some conn =>
      if IsHealthy conn then mret None
      else
        _ ← client_Close (Client conn);
        _ ← set_connections (delete routerID);
        ConnectRouter_dial env routerID
    | None => ConnectRouter_dial env routerID
    end).

(** *** DisconnectRouter *)

Definition DisconnectRouter (env : Env) (routerID : Z) : Go (option error) :=
  with_mu_Lock (
    w ← get_world;
    match connections w !! routerID with
    | None => mret (Some ErrNotConnected)
    | Some conn =>
      _ ← client_Close (Client conn);
      _ ← set_connections (delete routerID);
      _ ← repo_UpdateStatus env routerID (status_only "offline");
      mret None
    end).

(** *** GetConnection *)

Definition lookup_connection (routerID : Z) : Go (option MikrotikConnection) :=
  with_mu_RLock (w ← get_world; mret (connections w !! routerID)).

Definition check_healthy (conn : MikrotikConnection)
    : MikrotikConnection + error :=
  if negb (IsHealthy conn) then inr ErrConnectionUnhealthy else inl conn.

Definition GetConnection (env : Env) (routerID : Z)
    : Go (MikrotikConnection + error) :=
  c ← lookup_connection routerID;
  match c with
  | Some conn => mret (check_healthy conn)
  | None =>
    e ← ConnectRouter env routerID;
    match e with
    | Some err => mret (inr (ErrNotConnectedBecause err))
    | None =>
      c' ← lookup_connection routerID;
      match c' with
      | Some conn => mret (check_healthy conn)
      | None =>
        (* [conn] is nil here and [conn.IsHealthy] faults; not reached
           when nothing else touches the map in between, see
           [GetConnection_never_nil] *)
        mret (inr ErrNilConnection)
      end
    end
  end.

(** [GetAllConnections]: a copy of the map, taken under the read lock. *)
Definition GetAllConnections : Go (gmap Z MikrotikConnection) :=
  with_mu_RLock (w ← get_world; mret (connections w)).

(** *** MonitorInterfaceTrafficWithContext *)

Definition monitor_words (interfaceName : string) : list string :=
  ["/interface/monitor-traffic"; "=interface=" +:+ interfaceName].

Definition add_listen (routerID : Z) (c : routeros.Client)
    (interfaceName : string) : Go nat := fun w =>
  (next_listen w,
   mkWorld (connections w) (repo w) (next_client w) (closed_clients w)
     (open_listens w ++ [mkSubscription (next_listen w) routerID c interfaceName])
     (monitors w) (S (next_listen w)) (trace w)).

(** [conn.Client.Listen("/interface/monitor-traffic", "=interface=...")]
    on the client of [routerID] *)
Definition client_Listen (env : Env) (routerID : Z) (c : routeros.Client)
    (interfaceName : string) : Go (nat + string) :=
  _ ← emit (EvListen c (monitor_words interfaceName));
  match listen_args env c (monitor_words interfaceName) with
  | Some e => mret (inr e)
  | None => l ← add_listen routerID c interfaceName; mret (inl l)
  end.

(** [go func() { defer listen.Cancel(); ... }()] *)
Definition spawn_monitor (m : Monitor) : Go unit := fun w =>
  (tt, mkWorld (connections w) (repo w) (next_client w) (closed_clients w)
         (open_listens w) (monitors w ++ [m]) (next_listen w) (trace w)).

Definition MonitorInterfaceTrafficWithContext (env : Env) (routerID : Z)
    (interfaceName : string) : Go (option error) :=
  c ← GetConnection env routerID;
  match c with
  | inr err => mret (Some err)
  | inl conn =>
    l ← client_Listen env routerID (Client conn) interfaceName;
    match l with
    | inr e => mret (Some (ErrFailedToStartMonitoring e))
    | inl handle =>
      _ ← spawn_monitor (mkMonitor handle routerID interfaceName);
      mret None
    end
  end.

Definition drop_monitor (handle : nat) : Go unit := fun w =>
  (tt, mkWorld (connections w) (repo w) (next_client w) (closed_clients w)
         (filter (fun s => s_handle s ≠ handle) (open_listens w))
         (filter (fun m => m_listen m ≠ handle) (monitors w))
         (next_listen w) (trace w)).

(** The goroutine reading [handle] returns (its context is cancelled or
    the channel is closed): the deferred [listen.Cancel()] runs. *)
Definition monitor_exit (handle : nat) : Go unit :=
  w ← get_world;
  if bool_decide (handle ∈ m_listen <$> monitors w) then
    _ ← emit (EvListenCancel handle);
    drop_monitor handle
  else mret tt.

(** What one iteration of the goroutine's [select] sees: the context is
    done, the channel is closed, or a sentence arrives; with a sentence,
    whether the context is done by the time of the check that precedes
    the callback. *)
Inductive LoopInput :=
| InCtxDone
| InClosed
| InSentence (sentence : Sentence) (ctx_done : bool).

Definition stats_of (env : Env) (routerID : Z) (interfaceName : string)
    (sentence : Sentence) : TrafficStats :=
  {| ts_RouterID := routerID;
     InterfaceName := interfaceName;
     RxBytes := index (Map sentence) "rx-bytes";
     TxBytes := index (Map sentence) "tx-bytes";
     RxPackets := index (Map sentence) "rx-packets";
     TxPackets := index (Map sentence) "tx-packets";
     RxBitsPerSec := index (Map sentence) "rx-bits-per-second";
     TxBitsPerSec := index (Map sentence) "tx-bits-per-second";
     Timestamp := now env |}.

(** What the loop did with one received sentence: the sentence, whether
    the context was done at the check before the callback, and the
    argument of the callback if it was called. *)
Record Delivery := mkDelivery {
  d_sentence : Sentence;
  d_ctx_done : bool;
  d_callback : option TrafficStats
}.

(** The [for { select { ... } }] loop of the goroutine, over what its
    iterations see; an empty input is a goroutine still waiting. *)
Fixpoint monitor_loop (env : Env) (routerID : Z) (interfaceName : string)
    (input : list LoopInput) : list Delivery :=
  match input with
  | [] => []
  | InCtxDone :: _ => []
  | InClosed :: _ => []
  | InSentence sentence ctx_done :: rest =>
    if bool_decide (Word sentence = "!trap") then
      mkDelivery sentence ctx_done None
        :: monitor_loop env routerID interfaceName rest
    else if bool_decide (Word sentence = "!done") then
      mkDelivery sentence ctx_done None
        :: monitor_loop env routerID interfaceName rest
    else if bool_decide (Word sentence ≠ "!re") then
      mkDelivery sentence ctx_done None
        :: monitor_loop env routerID interfaceName rest
    else if ctx_done then
      [mkDelivery sentence ctx_done None]
    else
      mkDelivery sentence ctx_done
        (Some (stats_of env routerID interfaceName sentence))
        :: monitor_loop env routerID interfaceName rest
  end.

(** *** Counting subscriptions and consumers of a (router, interface) pair *)

Definition subscriptions (w : World) (routerID : Z) (interfaceName : string)
    : nat :=
  length (filter (fun s => s_router s = routerID ∧ s_interface s = interfaceName)
            (open_listens w)).

Definition consumers (w : World) (routerID : Z) (interfaceName : string)
    : nat :=
  length (filter (fun m => m_router m = routerID ∧ m_interface m = interfaceName)
            (monitors w)).

(** The calls that open and close subscriptions, for runs of several of
    them. *)
Inductive Call :=
| CallConnect (routerID : Z)
| CallDisconnect (routerID : Z)
| CallMonitor (routerID : Z) (interfaceName : string)
| CallMonitorExit (handle : nat).

Definition call (env : Env) (c : Call) : Go unit :=
  match c with
  | CallConnect routerID => _ ← ConnectRouter env routerID; mret tt
  | CallDisconnect routerID => _ ← DisconnectRouter env routerID; mret tt
  | CallMonitor routerID interfaceName =>
    _ ← MonitorInterfaceTrafficWithContext env routerID interfaceName; mret tt
  | CallMonitorExit handle => monitor_exit handle
  end.

Definition calls (env : Env) (cs : list Call) (w : World) : World :=
  foldl (fun w c => snd (call env c w)) w cs.

(** *** The map lock and the network *)

Definition is_network_call (e : Event) : bool :=
  match e with
  | EvDial _ | EvRunArgs _ _ | EvListen _ _ => true
  | _ => false
  end.

(** Whether some network call of the trace [t] happens while [ms.mu] is
    held ([held]: whether it is held at the start of [t]). *)
Fixpoint network_under_mu (held : bool) (t : list Event) : bool :=
  match t with
  | [] => false
  | EvMuLock :: t' | EvMuRLock :: t' => network_under_mu true t'
  | EvMuUnlock :: t' | EvMuRUnlock :: t' => network_under_mu false t'
  | e :: t' => (held && is_network_call e) || network_under_mu held t'
  end.

Definition is_mu_event (e : Event) : bool :=
  match e with
  | EvMuLock | EvMuUnlock | EvMuRLock | EvMuRUnlock => true
  | _ => false
  end.

Definition not_mu (e : Event) : Prop := is_mu_event e = false.

(** The events a call performed: what it appended to the trace. *)
Definition emitted (w w' : World) : list Event :=
  drop (length (trace w)) (trace w').

(** *** Notions used by the properties *)

(** The router has no session, or a session marked unhealthy. *)
Definition no_healthy_session (w : World) (routerID : Z) : Prop :=
  ∀ conn, connections w !! routerID = Some conn -> IsHealthy conn = false.

(** The world in which [ConnectRouter] starts to load the descriptor: the
    map lock is taken and a stale session, if any, is closed and evicted. *)
Definition after_eviction (routerID : Z) (w : World) : World :=
  match connections w !! routerID with
  | Some conn =>
    mkWorld (delete routerID (connections w)) (repo w) (next_client w)
      (closed_clients w ++ [Client conn]) (open_listens w) (monitors w)
      (next_listen w) (trace w ++ [EvMuLock; EvClientClose (Client conn)])
  | None =>
    mkWorld (connections w) (repo w) (next_client w) (closed_clients w)
      (open_listens w) (monitors w) (next_listen w) (trace w ++ [EvMuLock])
  end.

(** Dial and login to [router] succeed before the timeout of
    [ConnectRouter]. *)
Definition dial_succeeds (env : Env) (router : models.Router) : Prop :=
  tcp_dial env (address_of router) = None
  ∧ new_client env (address_of router) = None
  ∧ login env (address_of router) (Username router) (Password router) = None
  ∧ select_dial (dial_elapsed env (address_of router)) 20 (select_tie env)
    = ResultReady.

(** [m] leaves the subscriptions and the monitors alone and touches the
    map lock nowhere. *)
Definition quiet {A} (m : Go A) : Prop :=
  ∀ w, open_listens (snd (m w)) = open_listens w
       ∧ monitors (snd (m w)) = monitors w
       ∧ ∃ evs, trace (snd (m w)) = trace w ++ evs ∧ Forall not_mu evs.

(** The shape of a method that holds a lock of the map for its whole
    body. *)
Definition bracketed (lock unlock : Event) (w w' : World) : Prop :=
  open_listens w' = open_listens w
  ∧ monitors w' = monitors w
  ∧ ∃ body, trace w' = trace w ++ lock :: body ++ [unlock] ∧ Forall not_mu body.

(** Subscriptions and monitor goroutines correspond one to one, in order. *)
Definition paired (w : World) : Prop :=
  (fun s => (s_handle s, s_router s, s_interface s)) <$> open_listens w
  = (fun m => (m_listen m, m_router m, m_interface m)) <$> monitors w.

(** What the loop hands to the callback for a sentence, if anything. *)
Definition expected_callback (env : Env) (routerID : Z) (interfaceName : string)
    (sentence : Sentence) (ctx_done : bool) : option TrafficStats :=
  if bool_decide (Word sentence = "!re") && negb ctx_done
  then Some (stats_of env routerID interfaceName sentence)
  else None.

(** The iteration that sees [x] is followed by another one: [x] is a
    sentence, and not a "!re" sentence met with the context done (the
    loop returns on [ctx.Done()], on a closed channel, and at the check
    before the callback). *)
Definition goes_on (x : LoopInput) : bool :=
  match x with
  | InSentence sentence ctx_done =>
    negb (bool_decide (Word sentence = "!re") && ctx_done)
  | InCtxDone | InClosed => false
  end.

End services.

(** ** The session lock [MikrotikConnection.mu]

  Every one-shot method takes the lock of the connection it got from
  [GetConnection], runs its commands on [conn.Client] and releases the
  lock on return ([defer]). The listings take it with [RLock], the
  others with [Lock]. Several calls on one connection are modelled as
  threads that are interleaved by a schedule. *)

Module SessionLock.

Inductive OneShot :=
| GetInterfaces | EnableInterface | DisableInterface
| GetAddresses | AddAddress | RemoveAddress
| GetQueues | AddQueue | RemoveQueue
| GetInterfaceTrafficOnce.

Inductive LockMode := Shared | Exclusive.

#[global] Instance LockMode_eq_dec : EqDecision LockMode.
Proof. solve_decision. Defined.

(** [conn.mu.RLock()] or [conn.mu.Lock()], method by method. *)
Definition lock_mode (op : OneShot) : LockMode :=
  match op with
  | GetInterfaces => Shared
  | EnableInterface => Exclusive
  | DisableInterface => Exclusive
  | GetAddresses => Shared
  | AddAddress => Exclusive
  | RemoveAddress => Exclusive
  | GetQueues => Shared
  | AddQueue => Exclusive
  | RemoveQueue => Exclusive
  | GetInterfaceTrafficOnce => Exclusive
  end.

(** [sync.RWMutex]: the number of readers inside, and whether a writer
    is inside. *)
Record RWMutex := mkRWMutex {
  readers : nat;
  writer : bool
}.

(** [RLock]/[Lock] return only in the states where this is [Some]. (Go
    also holds back a new reader while a writer is waiting; the model
    allows every interleaving Go allows, and more.) *)
Definition acquire (m : LockMode) (mu : RWMutex) : option RWMutex :=
  match m with
  | Shared =>
    if writer mu then None else Some (mkRWMutex (S (readers mu)) false)
  | Exclusive =>
    if writer mu then None
    else match readers mu with
         | O => Some (mkRWMutex 0 true)
         | S _ => None
         end
  end.

(** [RUnlock]/[Unlock] *)
Definition release (m : LockMode) (mu : RWMutex) : RWMutex :=
  match m with
  | Shared => mkRWMutex (pred (readers mu)) (writer mu)
  | Exclusive => mkRWMutex (readers mu) false
  end.

(** Where a call is: before its lock call returns, between the lock and
    the deferred unlock (where its commands run), or returned. *)
Inductive Phase := Waiting | Executing | Returned.

#[global] Instance Phase_eq_dec : EqDecision Phase.
Proof. solve_decision. Defined.

Record Thread := mkThread {
  op : OneShot;
  phase : Phase
}.

Record Session := mkSession {
  mu : RWMutex;
  threads : list Thread
}.

Definition start (ops : list OneShot) : Session :=
  mkSession (mkRWMutex 0 false) ((fun o => mkThread o Waiting) <$> ops).

(** Thread [i] takes its next step, if it has one and is not blocked. *)
Definition step (i : nat) (s : Session) : option Session :=
  match threads s !! i with
  | Some (mkThread o Waiting) =>
    match acquire (lock_mode o) (mu s) with
    | Some mu' => Some (mkSession mu' (<[i := mkThread o Executing]> (threads s)))
    | None => None
    end
  | Some (mkThread o Executing) =>
    Some (mkSession (release (lock_mode o) (mu s))
            (<[i := mkThread o Returned]> (threads s)))
  | _ => None
  end.

(** A schedule names the thread that moves next; a thread that cannot
    move leaves the session as it is. *)
Definition run (schedule : list nat) (s : Session) : Session :=
  foldl (fun s i => default s (step i s)) s schedule.

Definition executing (s : Session) (i : nat) : Prop :=
  ∃ o, threads s !! i = Some (mkThread o Executing).

Definition executing_in (m : LockMode) (s : Session) (i : nat) : Prop :=
  ∃ o, threads s !! i = Some (mkThread o Executing) ∧ lock_mode o = m.

(** The number of threads that execute under the lock in mode [m]. *)
Definition inside (m : LockMode) (ts : list Thread) : nat :=
  length (filter (fun t => phase t = Executing ∧ lock_mode (op t) = m) ts).

Definition is_inside (m : LockMode) (t : Thread) : nat :=
  if decide (phase t = Executing ∧ lock_mode (op t) = m) then 1%nat else 0%nat.

(** The mutex counts exactly the threads inside. *)
Definition lock_inv (s : Session) : Prop :=
  readers (mu s) = inside Shared (threads s)
  ∧ if writer (mu s)
    then inside Exclusive (threads s) = 1%nat ∧ inside Shared (threads s) = 0%nat
    else inside Exclusive (threads s) = 0%nat.

End SessionLock.

(** ** handlers: MonitorTrafficWS *)

Module handlers.

Record TrafficMessage := mkMessage {
  Type_ : string;
  Interface : string;
  Data : option services.TrafficStats;
  Error : string;
  Message : string;
  Timestamp : Z
}.

(** The state of one WebSocket session: [wsOpen], whether [ctx] is
    cancelled, the messages handed to [conn.WriteJSON] so far,
    [updateCounters] and [startErrors]. *)
Record WsSession := mkWsSession {
  wsOpen : bool;
  cancelled : bool;
  written : list TrafficMessage;
  updateCounters : gmap string Z;
  startErrors : list string
}.




(** The [callback] of the goroutine of [interfaceName]; [write_ok] is
    whether [conn.WriteJSON] succeeds. *)
Definition callback (now : Z) (interfaceName : string)
    (stats : services.TrafficStats) (write_ok : bool) (st : WsSession)
    : WsSession :=
  if cancelled st then st
  else
    let counters :=
      <[interfaceName := (default 0 (updateCounters st !! interfaceName) + 1)%Z]>
        (updateCounters st) in
    let msg := mkMessage "traffic_update" interfaceName (Some stats) "" "" now in
    if wsOpen st then
      if write_ok then
        mkWsSession (wsOpen st) (cancelled st) (written st ++ [msg]) counters
          (startErrors st)
      else
        (* [wsOpen = false; cancel()] *)
        mkWsSession false true (written st ++ [msg]) counters (startErrors st)
    else
      mkWsSession (wsOpen st) (cancelled st) (written st) counters
        (startErrors st).













End handlers.

(** ** Concrete routers, environments and worlds *)

Module examples.
Import models routeros services.

Definition router_core : models.Router :=
  mkRouter 1 "core" "10.0.0.1" "admin" "secret" 8728 true None "offline" None None.

Definition router_edge : models.Router :=
  mkRouter 2 "edge" "10.0.0.2" "admin" "secret" 8728 false None "offline" None None.

Definition registry : gmap Z models.Router :=
  {[1 := router_core; 2 := router_edge]}.

Definition resource_reply : Reply :=
  mkReply [mkSentence "!re" {["version" := "7.15"; "uptime" := "3d4h"]}].

(** Every dial succeeds after 2 seconds, every command and [Listen] is
    accepted. *)
Definition env_ok : Env :=
  mkEnv 1000 (fun _ => None) (fun _ => None) (fun _ _ _ => None)
    (fun _ => Some 2) ResultReady (fun _ _ => inl resource_reply)
    (fun _ _ => None).


Definition world_empty : World := mkWorld ∅ registry 0 [] [] [] 0 [].

Definition stale_conn : MikrotikConnection :=
  mkConnection 1 router_core 0%nat 900 false.

Definition healthy_conn : MikrotikConnection :=
  mkConnection 1 router_core 0%nat 900 true.

Definition world_stale : World :=
  mkWorld {[1 := stale_conn]} registry 1 [] [] [] 0 [].

Definition world_connected : World :=
  mkWorld {[1 := healthy_conn]} registry 1 [] [] [] 0 [].

Definition re_sentence : Sentence :=
  mkSentence "!re"
    {["rx-bytes" := "1500"; "tx-bytes" := "900";
      "rx-bits-per-second" := "12000"; "tx-bits-per-second" := "7200"]}.

End examples.

(** * Properties *)

(** ** The connection manager *)

(** Unfolding of the monad's primitives, and of the methods down to them. *)
Ltac go_prim :=
  unfold services.with_mu_Lock, services.with_mu_RLock, services.repo_GetByID,
    services.repo_UpdateStatus, services.client_Close, services.client_RunArgs,
    services.mark_closed, services.emit, services.set_connections,
    services.set_repo, services.get_world, mbind, mret, services.Go_bind,
    services.Go_ret in *; simpl in *.

Ltac go_unfold :=
  unfold services.ConnectRouter, services.ConnectRouter_dial,
    services.DisconnectRouter, services.GetConnection,
    services.lookup_connection, services.GetAllConnections,
    services.getSystemInfo, services.dialWithTimeout, services.dial_worker,
    services.alloc_client in *; go_prim.

Section ConnectionManager.
Import models routeros services examples.

(** C5: for a router with no session in the connection map whose
    descriptor loads from the registry and is not active, [ConnectRouter]
    returns the "router is not active" failure, attempts no dial (it only
    takes the lock, reads the registry and releases the lock), and leaves
    the connection map (and the registry) unchanged. *)
Theorem ConnectRouter_inactive (env : Env) (routerID : Z) (w : World)
    (router : models.Router) :
  connections w !! routerID = None ->
  repo w !! routerID = Some router ->
  IsActive router = false ->
  fst (ConnectRouter env routerID w) = Some ErrRouterNotActive
  ∧ connections (snd (ConnectRouter env routerID w)) = connections w
  ∧ repo (snd (ConnectRouter env routerID w)) = repo w
  ∧ emitted w (snd (ConnectRouter env routerID w))
    = [EvMuLock; EvRepoGetByID routerID; EvMuUnlock]
  ∧ (∀ address, EvDial address ∉ emitted w (snd (ConnectRouter env routerID w))).
Proof.
  intros Hmap Hrepo Hactive.
  assert (Htrace : emitted w (snd (ConnectRouter env routerID w))
                   = [EvMuLock; EvRepoGetByID routerID; EvMuUnlock]).
  { unfold emitted. go_unfold. unfold repository.GetByID.
    rewrite Hmap. simpl. rewrite Hrepo. simpl. rewrite Hactive. simpl.
    by rewrite <- !app_assoc, drop_app_length. }
  rewrite Htrace. go_unfold. unfold repository.GetByID.
  rewrite Hmap. simpl. rewrite Hrepo. simpl. rewrite Hactive. simpl.
  repeat split; try done.
  intros address Hin. repeat (apply elem_of_cons in Hin as [Hin|Hin]; [done|]).
  by apply elem_of_nil in Hin.
Qed.

Lemma ConnectRouter_inactive_witness :
  fst (ConnectRouter env_ok 2 world_empty) = Some ErrRouterNotActive
  ∧ connections (snd (ConnectRouter env_ok 2 world_empty)) = connections world_empty
  ∧ repo (snd (ConnectRouter env_ok 2 world_empty)) = repo world_empty
  ∧ emitted world_empty (snd (ConnectRouter env_ok 2 world_empty))
    = [EvMuLock; EvRepoGetByID 2; EvMuUnlock]
  ∧ (∀ address,
       EvDial address ∉ emitted world_empty (snd (ConnectRouter env_ok 2 world_empty))).
Proof.
  apply (ConnectRouter_inactive env_ok 2 world_empty router_edge); reflexivity.
Defined.

(** C10: [ConnectRouter] on a router whose connection-map entry is healthy
    returns success and does nothing else: it takes and releases the map
    lock, loads no descriptor, dials nothing, closes no client, and leaves
    the connection map and the registry as they are. *)
Theorem ConnectRouter_healthy_idempotent (env : Env) (routerID : Z) (w : World)
    (conn : MikrotikConnection) :
  connections w !! routerID = Some conn ->
  IsHealthy conn = true ->
  fst (ConnectRouter env routerID w) = None
  ∧ connections (snd (ConnectRouter env routerID w)) = connections w
  ∧ repo (snd (ConnectRouter env routerID w)) = repo w
  ∧ closed_clients (snd (ConnectRouter env routerID w)) = closed_clients w
  ∧ next_client (snd (ConnectRouter env routerID w)) = next_client w
  ∧ emitted w (snd (ConnectRouter env routerID w)) = [EvMuLock; EvMuUnlock].
Proof.
  intros Hmap Hhealthy. unfold emitted. go_unfold.
  rewrite Hmap. simpl. rewrite Hhealthy. simpl.
  rewrite <- !app_assoc, drop_app_length. done.
Qed.

Lemma ConnectRouter_healthy_idempotent_witness :
  fst (ConnectRouter env_ok 1 world_connected) = None
  ∧ connections (snd (ConnectRouter env_ok 1 world_connected))
    = connections world_connected
  ∧ repo (snd (ConnectRouter env_ok 1 world_connected)) = repo world_connected
  ∧ closed_clients (snd (ConnectRouter env_ok 1 world_connected))
    = closed_clients world_connected
  ∧ next_client (snd (ConnectRouter env_ok 1 world_connected))
    = next_client world_connected
  ∧ emitted world_connected (snd (ConnectRouter env_ok 1 world_connected))
    = [EvMuLock; EvMuUnlock].
Proof.
  apply (ConnectRouter_healthy_idempotent env_ok 1 world_connected healthy_conn);
    reflexivity.
Defined.

Lemma UpdateStatus_lookup (t id : Z) (status : RouterStatusUpdate)
    (db : gmap Z models.Router) :
  Status <$> (repository.UpdateStatus t id status db !! id)
  = (fun _ => upd_Status status) <$> (db !! id).
Proof.
  unfold repository.UpdateStatus. rewrite lookup_alter_eq.
  destruct (db !! id); done.
Qed.

(** C9: when the router has a session, [DisconnectRouter] succeeds,
    removes the session from the connection map, closes its client and
    writes the status "offline" to the registry; when it has none,
    [DisconnectRouter] fails with "router not connected" and leaves the
    connection map and the registry unchanged, with no registry call at
    all (it only takes and releases the map lock). *)
Theorem DisconnectRouter_spec (env : Env) (routerID : Z) (w : World) :
  (∀ conn, connections w !! routerID = Some conn ->
     fst (DisconnectRouter env routerID w) = None
     ∧ connections (snd (DisconnectRouter env routerID w))
       = delete routerID (connections w)
     ∧ closed_clients (snd (DisconnectRouter env routerID w))
       = closed_clients w ++ [Client conn]
     ∧ repo (snd (DisconnectRouter env routerID w))
       = repository.UpdateStatus (now env) routerID (status_only "offline") (repo w)
     ∧ Status <$> (repo (snd (DisconnectRouter env routerID w)) !! routerID)
       = (fun _ => "offline") <$> (repo w !! routerID)
     ∧ emitted w (snd (DisconnectRouter env routerID w))
       = [EvMuLock; EvClientClose (Client conn);
          EvRepoUpdateStatus routerID "offline"; EvMuUnlock])
  ∧ (connections w !! routerID = None ->
     fst (DisconnectRouter env routerID w) = Some ErrNotConnected
     ∧ connections (snd (DisconnectRouter env routerID w)) = connections w
     ∧ repo (snd (DisconnectRouter env routerID w)) = repo w
     ∧ closed_clients (snd (DisconnectRouter env routerID w)) = closed_clients w
     ∧ emitted w (snd (DisconnectRouter env routerID w)) = [EvMuLock; EvMuUnlock]).
Proof.
  split.
  - intros conn Hmap. unfold emitted. go_unfold. rewrite Hmap. simpl.
    repeat split; try done.
    + apply UpdateStatus_lookup.
    + by rewrite <- !app_assoc, drop_app_length.
  - intros Hmap. unfold emitted. go_unfold. rewrite Hmap. simpl.
    by rewrite <- !app_assoc, drop_app_length.
Qed.

Lemma DisconnectRouter_spec_witness :
  (fst (DisconnectRouter env_ok 1 world_connected) = None
   ∧ connections (snd (DisconnectRouter env_ok 1 world_connected)) !! 1 = None
   ∧ closed_clients (snd (DisconnectRouter env_ok 1 world_connected)) = [0%nat]
   ∧ Status <$> (repo (snd (DisconnectRouter env_ok 1 world_connected)) !! 1)
     = Some "offline")
  ∧ (fst (DisconnectRouter env_ok 1 world_empty) = Some ErrNotConnected
     ∧ connections (snd (DisconnectRouter env_ok 1 world_empty))
       = connections world_empty
     ∧ repo (snd (DisconnectRouter env_ok 1 world_empty)) = repo world_empty).
Proof.
  split.
  - destruct (proj1 (DisconnectRouter_spec env_ok 1 world_connected) healthy_conn)
      as (Hres & Hconn & Hclosed & _ & Hstatus & _); [reflexivity|].
    rewrite Hres, Hconn, Hclosed, Hstatus. repeat split; reflexivity.
  - destruct (proj2 (DisconnectRouter_spec env_ok 1 world_empty))
      as (Hres & Hconn & Hrepo & _); [reflexivity|].
    rewrite Hres, Hconn, Hrepo. repeat split; reflexivity.
Defined.

(** *** The bounded dial *)


Lemma dial_worker_shape (env : Env) (address username password : string)
    (w : World) :
  fst (dial_worker env address username password w) = (Some (next_client w), None)
  ∨ ∃ e, fst (dial_worker env address username password w) = (None, Some e)
         ∧ ∀ t, e ≠ ErrConnectionTimeout t.
Proof.
  go_unfold.
  destruct (tcp_dial env address); [right; eauto|].
  destruct (new_client env address); [right; eauto|]. simpl.
  destruct (login env address username password); [right; eauto|].
  by left.
Qed.

Lemma dial_worker_fst (env : Env) (address username password : string)
    (w1 w2 : World) :
  next_client w1 = next_client w2 ->
  fst (dial_worker env address username password w1)
  = fst (dial_worker env address username password w2).
Proof.
  intros Hn. go_unfold.
  repeat case_match; simpl; rewrite ?Hn; done.
Qed.

Lemma dialWithTimeout_race (env : Env) (address username password : string)
    (timeout : Z) (w : World) :
  (select_dial (dial_elapsed env address) timeout (select_tie env) = ResultReady
   ∧ fst (dialWithTimeout env address username password timeout w)
     = fst (dial_worker env address username password w))
  ∨ (select_dial (dial_elapsed env address) timeout (select_tie env) = CtxDone
     ∧ fst (dialWithTimeout env address username password timeout w)
       = (None, Some (ErrConnectionTimeout timeout))).
Proof.
  unfold dialWithTimeout, mbind, Go_bind, emit.
  destruct (dial_elapsed env address) as [t|]; [|by right].
  generalize (select_dial (Some t) timeout (select_tie env)). intros sc.
  match goal with |- context [dial_worker ?e ?a ?u ?p ?w'] =>
    pose proof (dial_worker_fst e a u p w' w eq_refl) as Hw;
    destruct (dial_worker e a u p w') as [res w''] end.
  simpl in Hw. subst res.
  destruct sc; [left|right]; split; reflexivity.
Qed.

Lemma dialWithTimeout_client_xor_error (env : Env)
    (address username password : string) (timeout : Z) (w : World) :
  (∃ c, fst (dialWithTimeout env address username password timeout w) = (Some c, None))
  ∨ (∃ e, fst (dialWithTimeout env address username password timeout w) = (None, Some e)).
Proof.
  destruct (dialWithTimeout_race env address username password timeout w)
    as [[_ ->]|[_ ->]]; [|eauto].
  destruct (dial_worker_shape env address username password w) as [->|[e [-> _]]]; eauto.
Qed.


Lemma dialWithTimeout_frame (env : Env) (address username password : string)
    (timeout : Z) (w : World) :
  let w' := snd (dialWithTimeout env address username password timeout w) in
  connections w' = connections w ∧ repo w' = repo w
  ∧ open_listens w' = open_listens w ∧ monitors w' = monitors w
  ∧ ∃ evs, trace w' = trace w ++ EvDial address :: evs
           ∧ Forall (fun e => is_mu_event e = false) evs.
Proof.
  go_unfold. repeat case_match; simplify_eq; simpl; repeat split; try done;
    rewrite <- ?app_assoc; simpl; eexists; (split; [reflexivity|]);
    repeat constructor.
Qed.

Lemma ConnectRouter_no_healthy (env : Env) (routerID : Z) (w : World) :
  no_healthy_session w routerID ->
  ConnectRouter env routerID w
  = (fst (ConnectRouter_dial env routerID (after_eviction routerID w)),
     snd (emit EvMuUnlock
            (snd (ConnectRouter_dial env routerID (after_eviction routerID w))))).
Proof.
  intros Hno. unfold ConnectRouter, after_eviction. go_prim.
  destruct (connections w !! routerID) as [conn|] eqn:Hmap.
  - rewrite (Hno conn Hmap). simpl. rewrite <- app_assoc. simpl.
    destruct (ConnectRouter_dial _ _ _); done.
  - destruct (ConnectRouter_dial _ _ _); done.
Qed.

Lemma after_eviction_facts (routerID : Z) (w : World) :
  connections (after_eviction routerID w) = delete routerID (connections w)
  ∧ repo (after_eviction routerID w) = repo w
  ∧ next_client (after_eviction routerID w) = next_client w.
Proof.
  unfold after_eviction. destruct (connections w !! routerID) eqn:E; simpl;
    repeat split; try done.
  by rewrite delete_id.
Qed.




(** *** Unhealthy sessions *)

Lemma dialWithTimeout_success (env : Env) (router : models.Router) (w : World) :
  dial_succeeds env router ->
  fst (dialWithTimeout env (address_of router) (Username router)
         (Password router) 20 w) = (Some (next_client w), None)
  ∧ closed_clients (snd (dialWithTimeout env (address_of router) (Username router)
         (Password router) 20 w)) = closed_clients w.
Proof.
  intros (Htcp & Hnew & Hlogin & Hsel). go_unfold.
  destruct (dial_elapsed env (address_of router)) as [t|]; [|done].
  rewrite Htcp, Hnew. simpl. rewrite Hlogin. simpl. rewrite Hsel. done.
Qed.

Lemma ConnectRouter_dial_success (env : Env) (routerID : Z) (w : World)
    (router : models.Router) :
  repo w !! routerID = Some router ->
  IsActive router = true ->
  dial_succeeds env router ->
  fst (ConnectRouter_dial env routerID w) = None
  ∧ connections (snd (ConnectRouter_dial env routerID w))
    = <[routerID := mkConnection routerID router (next_client w) (now env) true]>
        (connections w)
  ∧ closed_clients (snd (ConnectRouter_dial env routerID w)) = closed_clients w.
Proof.
  intros Hrepo Hactive Hdial. unfold ConnectRouter_dial, getSystemInfo. go_prim.
  unfold repository.GetByID. rewrite Hrepo. simpl. rewrite Hactive. simpl.
  match goal with |- context [dialWithTimeout ?e ?a ?u ?p ?t ?w1] =>
    pose proof (dialWithTimeout_success e router w1 Hdial) as (Hf & Hcl);
    pose proof (dialWithTimeout_frame e a u p t w1) as (Hc & Hr & _);
    destruct (dialWithTimeout e a u p t w1) as [[c' e'] w2] end.
  simpl in *. simplify_eq. simpl. by rewrite Hc, Hcl.
Qed.

(** C2, as the code has it: for a router whose connection-map entry is
    marked unhealthy, [GetConnection] fails with "router connection
    unhealthy" and changes nothing (the stale session stays in the map and
    is not closed; only the map is read). It is [ConnectRouter] that
    closes and evicts the stale session and, when the descriptor loads, is
    active and dial and login succeed in time, installs a fresh healthy
    session on a new client, which [GetConnection] then returns. *)
Theorem unhealthy_session_replaced_by_ConnectRouter (env : Env) (routerID : Z)
    (w : World) (conn : MikrotikConnection) :
  connections w !! routerID = Some conn ->
  IsHealthy conn = false ->
  (fst (GetConnection env routerID w) = inr ErrConnectionUnhealthy
   ∧ connections (snd (GetConnection env routerID w)) = connections w
   ∧ repo (snd (GetConnection env routerID w)) = repo w
   ∧ closed_clients (snd (GetConnection env routerID w)) = closed_clients w
   ∧ trace (snd (GetConnection env routerID w))
     = trace w ++ [EvMuRLock; EvMuRUnlock])
  ∧ (∀ router : models.Router,
       repo w !! routerID = Some router ->
       IsActive router = true ->
       dial_succeeds env router ->
       (Client conn < next_client w)%nat ->
       let fresh := mkConnection routerID router (next_client w) (now env) true in
       let w' := snd (ConnectRouter env routerID w) in
       fst (ConnectRouter env routerID w) = None
       ∧ Client conn ∈ closed_clients w'
       ∧ connections w' !! routerID = Some fresh
       ∧ Client fresh ≠ Client conn
       ∧ fst (GetConnection env routerID w') = inl fresh).
Proof.
  intros Hmap Hstale. split.
  - unfold GetConnection, lookup_connection, check_healthy. go_prim.
    rewrite Hmap. simpl. rewrite Hstale. simpl. rewrite <- app_assoc. done.
  - intros router Hrepo Hactive Hdial Hold fresh w'.
    assert (Hno : no_healthy_session w routerID).
    { intros conn' Hc. congruence. }
    subst w'. rewrite (ConnectRouter_no_healthy env routerID w Hno). simpl.
    destruct (after_eviction_facts routerID w) as (Hc & Hr & Hn).
    destruct (ConnectRouter_dial_success env routerID (after_eviction routerID w)
                router) as (Hres & Hconn & Hcl); [by rewrite Hr|done|done|].
    rewrite Hn in Hconn. fold fresh in Hconn.
    assert (Hclosed : closed_clients (after_eviction routerID w)
                      = closed_clients w ++ [Client conn]).
    { unfold after_eviction. by rewrite Hmap. }
    repeat split.
    + done.
    + rewrite Hcl, Hclosed. set_solver.
    + rewrite Hconn. apply lookup_insert_eq.
    + simpl. lia.
    + unfold GetConnection, lookup_connection, check_healthy. go_prim.
      rewrite Hconn, lookup_insert_eq. done.
Qed.

Lemma unhealthy_session_replaced_by_ConnectRouter_witness :
  fst (GetConnection env_ok 1 world_stale) = inr ErrConnectionUnhealthy
  ∧ fst (ConnectRouter env_ok 1 world_stale) = None
  ∧ Client stale_conn ∈ closed_clients (snd (ConnectRouter env_ok 1 world_stale))
  ∧ connections (snd (ConnectRouter env_ok 1 world_stale)) !! 1
    = Some (mkConnection 1 router_core 1%nat 1000 true).
Proof.
  destruct (unhealthy_session_replaced_by_ConnectRouter env_ok 1 world_stale
              stale_conn) as [(Hget & _) Hconnect]; [reflexivity|reflexivity|].
  destruct (Hconnect router_core) as (Hres & Hclosed & Hfresh & _);
    [reflexivity|reflexivity|repeat split; reflexivity|simpl; lia|].
  split; [exact Hget|]. split; [exact Hres|]. split; [exact Hclosed|exact Hfresh].
Defined.

(** C2, as stated, fails: with an unhealthy entry for router 1, a
    descriptor that loads and is active and a device that accepts dial and
    login, [GetConnection] returns no session at all, the stale session
    stays in the map and no client is closed. *)
Lemma GetConnection_keeps_unhealthy_session :
  connections world_stale !! 1 = Some stale_conn
  ∧ IsHealthy stale_conn = false
  ∧ repo world_stale !! 1 = Some router_core
  ∧ IsActive router_core = true
  ∧ dial_succeeds env_ok router_core
  ∧ fst (GetConnection env_ok 1 world_stale) = inr ErrConnectionUnhealthy
  ∧ connections (snd (GetConnection env_ok 1 world_stale)) !! 1 = Some stale_conn
  ∧ closed_clients (snd (GetConnection env_ok 1 world_stale)) = []
  ∧ ¬ (∃ fresh, fst (GetConnection env_ok 1 world_stale) = inl fresh).
Proof.
  repeat split; try reflexivity.
  intros [fresh Hfresh]. vm_compute in Hfresh. discriminate Hfresh.
Qed.

(** [GetConnection] never reaches its nil dereference. *)

Lemma ConnectRouter_dial_installs (env : Env) (routerID : Z) (w : World) :
  fst (ConnectRouter_dial env routerID w) = None ->
  ∃ conn, connections (snd (ConnectRouter_dial env routerID w)) !! routerID
          = Some conn ∧ IsHealthy conn = true.
Proof.
  unfold ConnectRouter_dial, getSystemInfo. go_prim.
  destruct (repository.GetByID routerID (repo w)) as [router|err]; [|done].
  destruct (IsActive router); simpl; [|done].
  match goal with |- context [dialWithTimeout ?e ?a ?u ?p ?t ?w1] =>
    pose proof (dialWithTimeout_client_xor_error e a u p t w1) as Hshape;
    destruct (dialWithTimeout e a u p t w1) as [[c e'] w2] end.
  simpl in Hshape. destruct Hshape as [[c' [= -> ->]]|[e0 [= -> ->]]]; simpl; [|done].
  intros _. eexists. split; [apply lookup_insert_eq|done].
Qed.

Lemma ConnectRouter_installs (env : Env) (routerID : Z) (w : World) :
  fst (ConnectRouter env routerID w) = None ->
  ∃ conn, connections (snd (ConnectRouter env routerID w)) !! routerID
          = Some conn ∧ IsHealthy conn = true.
Proof.
  destruct (connections w !! routerID) as [conn|] eqn:Hmap;
    [destruct (IsHealthy conn) eqn:Hhealthy|].
  - intros _. exists conn. unfold ConnectRouter. go_prim.
    rewrite Hmap. simpl. rewrite Hhealthy. done.
  - rewrite ConnectRouter_no_healthy by (intros c Hc; congruence).
    simpl. apply ConnectRouter_dial_installs.
  - rewrite ConnectRouter_no_healthy by (intros c Hc; congruence).
    simpl. apply ConnectRouter_dial_installs.
Qed.

Lemma GetConnection_never_nil (env : Env) (routerID : Z) (w : World) :
  fst (GetConnection env routerID w) ≠ inr ErrNilConnection.
Proof.
  unfold GetConnection, lookup_connection, check_healthy.
  unfold with_mu_RLock, emit, get_world, mbind, mret, Go_bind, Go_ret. simpl.
  destruct (connections w !! routerID) as [conn|]; simpl.
  { by destruct (IsHealthy conn). }
  match goal with |- context [ConnectRouter ?e ?r ?w1] =>
    pose proof (ConnectRouter_installs e r w1) as Hinst;
    destruct (ConnectRouter e r w1) as [[err|] w2] end; simpl in *; [done|].
  destruct (Hinst eq_refl) as (conn & -> & Hh). simpl. by rewrite Hh.
Qed.

(** *** The map lock *)

Lemma quiet_ret {A} (a : A) : quiet (mret a : Go A).
Proof. intros w. repeat split. exists []. by rewrite app_nil_r. Qed.

Lemma quiet_bind {A B} (m : Go A) (f : A -> Go B) :
  quiet m -> (∀ a, quiet (f a)) -> quiet (m ≫= f).
Proof.
  intros Hm Hf w. unfold mbind, Go_bind.
  destruct (Hm w) as (Hl & Hmo & evs & Ht & Hall).
  destruct (m w) as [a w1]. simpl in *.
  destruct (Hf a w1) as (Hl' & Hmo' & evs' & Ht' & Hall').
  repeat split; [congruence|congruence|].
  exists (evs ++ evs'). split.
  - rewrite Ht', Ht. by rewrite app_assoc.
  - by apply Forall_app.
Qed.

Lemma quiet_emit (e : Event) : not_mu e -> quiet (emit e).
Proof.
  intros He w. repeat split. exists [e]. split; [done|]. by constructor.
Qed.

Lemma quiet_dialWithTimeout (env : Env) (address username password : string)
    (timeout : Z) : quiet (dialWithTimeout env address username password timeout).
Proof.
  intros w.
  destruct (dialWithTimeout_frame env address username password timeout w)
    as (_ & _ & Hl & Hm & evs & Ht & Hall).
  repeat split; [done|done|]. exists (EvDial address :: evs).
  split; [done|]. by constructor.
Qed.

Lemma quiet_ConnectRouter_dial (env : Env) (routerID : Z) :
  quiet (ConnectRouter_dial env routerID).
Proof.
  unfold ConnectRouter_dial.
  apply quiet_bind.
  { unfold repo_GetByID. apply quiet_bind; [by apply quiet_emit|].
    intros _. apply quiet_bind; [|intros; apply quiet_ret].
    intros w. repeat split. exists []. by rewrite app_nil_r. }
  intros [router|err]; [|apply quiet_ret].
  destruct (negb (IsActive router)); [apply quiet_ret|].
  apply quiet_bind; [apply quiet_dialWithTimeout|].
  assert (Hupd : ∀ status, quiet (repo_UpdateStatus env routerID status)).
  { intros status. unfold repo_UpdateStatus.
    apply quiet_bind; [by apply quiet_emit|].
    intros _ w. repeat split. exists []. by rewrite app_nil_r. }
  intros [[client|] [err|]]; try apply quiet_ret;
    try (apply quiet_bind; [apply Hupd|intros; apply quiet_ret]).
  - apply quiet_bind.
    { unfold getSystemInfo, client_RunArgs.
      apply quiet_bind; [|intros; apply quiet_ret].
      apply quiet_bind; [by apply quiet_emit|intros; apply quiet_ret]. }
    intros si. apply quiet_bind; [apply Hupd|].
    intros _. apply quiet_bind; [|intros; apply quiet_ret].
    intros w. repeat split. exists []. by rewrite app_nil_r.
Qed.

Lemma quiet_state {A} (f : World -> A * World) :
  (∀ w, open_listens (snd (f w)) = open_listens w
        ∧ monitors (snd (f w)) = monitors w
        ∧ trace (snd (f w)) = trace w) ->
  quiet (f : Go A).
Proof.
  intros Hf w. destruct (Hf w) as (Hl & Hm & Ht).
  repeat split; [done|done|]. exists []. by rewrite app_nil_r.
Qed.

Lemma quiet_client_Close (c : routeros.Client) : quiet (client_Close c).
Proof.
  unfold client_Close. apply quiet_bind; [by apply quiet_emit|].
  intros _. by apply quiet_state.
Qed.

Lemma quiet_repo_UpdateStatus (env : Env) (routerID : Z)
    (status : RouterStatusUpdate) : quiet (repo_UpdateStatus env routerID status).
Proof.
  unfold repo_UpdateStatus. apply quiet_bind; [by apply quiet_emit|].
  intros _. by apply quiet_state.
Qed.

Lemma with_mu_Lock_bracketed {A} (body : Go A) (w : World) :
  quiet body -> bracketed EvMuLock EvMuUnlock w (snd (with_mu_Lock body w)).
Proof.
  intros Hq. unfold with_mu_Lock, mbind, Go_bind, mret, Go_ret, emit. simpl.
  match goal with |- context [body ?w1] =>
    destruct (Hq w1) as (Hl & Hm & evs & Ht & Hall); destruct (body w1) as [a w2]
  end. simpl in *. repeat split; [done|done|].
  exists evs. split; [|done]. rewrite Ht, <- !app_assoc. done.
Qed.

Lemma with_mu_RLock_bracketed {A} (body : Go A) (w : World) :
  quiet body -> bracketed EvMuRLock EvMuRUnlock w (snd (with_mu_RLock body w)).
Proof.
  intros Hq. unfold with_mu_RLock, mbind, Go_bind, mret, Go_ret, emit. simpl.
  match goal with |- context [body ?w1] =>
    destruct (Hq w1) as (Hl & Hm & evs & Ht & Hall); destruct (body w1) as [a w2]
  end. simpl in *. repeat split; [done|done|].
  exists evs. split; [|done]. rewrite Ht, <- !app_assoc. done.
Qed.

Lemma ConnectRouter_bracketed (env : Env) (routerID : Z) (w : World) :
  bracketed EvMuLock EvMuUnlock w (snd (ConnectRouter env routerID w)).
Proof.
  apply with_mu_Lock_bracketed.
  apply quiet_bind; [by apply quiet_state|].
  intros w0. destruct (connections w0 !! routerID) as [conn|];
    [|apply quiet_ConnectRouter_dial].
  destruct (IsHealthy conn); [apply quiet_ret|].
  apply quiet_bind; [apply quiet_client_Close|]. intros _.
  apply quiet_bind; [by apply quiet_state|]. intros _.
  apply quiet_ConnectRouter_dial.
Qed.

Lemma DisconnectRouter_bracketed (env : Env) (routerID : Z) (w : World) :
  bracketed EvMuLock EvMuUnlock w (snd (DisconnectRouter env routerID w)).
Proof.
  apply with_mu_Lock_bracketed.
  apply quiet_bind; [by apply quiet_state|].
  intros w0. destruct (connections w0 !! routerID) as [conn|];
    [|apply quiet_ret].
  apply quiet_bind; [apply quiet_client_Close|]. intros _.
  apply quiet_bind; [by apply quiet_state|]. intros _.
  apply quiet_bind; [apply quiet_repo_UpdateStatus|]. intros _.
  apply quiet_ret.
Qed.

Lemma network_under_mu_held (body : list Event) (rest : list Event) :
  Forall not_mu body ->
  network_under_mu true (body ++ rest)
  = existsb is_network_call body || network_under_mu true rest.
Proof.
  induction 1 as [|e body He _ IH]; [done|].
  simpl. rewrite <- orb_assoc, <- IH.
  destruct e; try done.
Qed.

Lemma network_under_mu_bracket (body : list Event) :
  Forall not_mu body ->
  network_under_mu false (EvMuLock :: body ++ [EvMuUnlock])
  = existsb is_network_call body.
Proof.
  intros Hall. simpl. rewrite (network_under_mu_held body _ Hall).
  simpl. by rewrite orb_false_r.
Qed.

Lemma emitted_app (w w' : World) (evs : list Event) :
  trace w' = trace w ++ evs -> emitted w w' = evs.
Proof. intros Ht. unfold emitted. rewrite Ht. by rewrite drop_app_length. Qed.

Lemma ConnectRouter_dial_dials (env : Env) (routerID : Z) (w : World)
    (router : models.Router) :
  repo w !! routerID = Some router ->
  IsActive router = true ->
  ∃ evs, trace (snd (ConnectRouter_dial env routerID w))
         = trace w ++ EvRepoGetByID routerID :: EvDial (address_of router) :: evs.
Proof.
  intros Hrepo Hactive. unfold ConnectRouter_dial, getSystemInfo. go_prim.
  unfold repository.GetByID. rewrite Hrepo. simpl. rewrite Hactive. simpl.
  match goal with |- context [dialWithTimeout ?e ?a ?u ?p ?t ?w1] =>
    pose proof (dialWithTimeout_frame e a u p t w1) as (_ & _ & _ & _ & evs & Ht & _);
    destruct (dialWithTimeout e a u p t w1) as [[[c|] [e'|]] w2] end;
  simpl in *; rewrite Ht, <- !app_assoc; simpl; eauto.
Qed.

(** C4, as the code has it: the map lock is held with no network call in
    progress in the lookup of [GetConnection] and in the snapshot of
    [GetAllConnections], which only read the map between taking and
    releasing it. [ConnectRouter] takes the lock on entry and releases it
    on return and not in between, so every network call it makes (the dial
    with login, the system-info command) is made while the lock is held;
    it makes one whenever the router has no healthy session and its
    descriptor loads and is active. *)
Theorem mu_held_for_whole_ConnectRouter (env : Env) (routerID : Z) (w : World) :
  (∀ conn, connections w !! routerID = Some conn ->
     emitted w (snd (GetConnection env routerID w)) = [EvMuRLock; EvMuRUnlock])
  ∧ emitted w (snd (GetAllConnections w)) = [EvMuRLock; EvMuRUnlock]
  ∧ (∃ body,
       emitted w (snd (ConnectRouter env routerID w))
       = EvMuLock :: body ++ [EvMuUnlock]
       ∧ Forall (fun e => is_mu_event e = false) body
       ∧ network_under_mu false (emitted w (snd (ConnectRouter env routerID w)))
         = existsb is_network_call body)
  ∧ (∀ router : models.Router,
       no_healthy_session w routerID ->
       repo w !! routerID = Some router ->
       IsActive router = true ->
       network_under_mu false (emitted w (snd (ConnectRouter env routerID w)))
       = true).
Proof.
  repeat split.
  - intros conn Hmap. apply emitted_app.
    unfold GetConnection, lookup_connection. go_prim. rewrite Hmap. simpl.
    by rewrite <- app_assoc.
  - apply emitted_app. unfold GetAllConnections. go_prim.
    by rewrite <- app_assoc.
  - destruct (ConnectRouter_bracketed env routerID w) as (_ & _ & body & Ht & Hall).
    exists body. rewrite (emitted_app _ _ _ Ht).
    repeat split; [done|]. by apply network_under_mu_bracket.
  - intros router Hno Hrepo Hactive.
    rewrite (ConnectRouter_no_healthy env routerID w Hno). simpl.
    destruct (after_eviction_facts routerID w) as (_ & Hr & _).
    destruct (ConnectRouter_dial_dials env routerID (after_eviction routerID w) router)
      as [evs Ht]; [by rewrite Hr|done|].
    rewrite Ht. unfold after_eviction.
    destruct (connections w !! routerID) as [conn|];
      unfold emitted; simpl; rewrite <- !app_assoc, drop_app_length; done.
Qed.

Lemma mu_held_for_whole_ConnectRouter_witness :
  emitted world_connected (snd (GetConnection env_ok 1 world_connected))
  = [EvMuRLock; EvMuRUnlock]
  ∧ network_under_mu false
      (emitted world_empty (snd (ConnectRouter env_ok 1 world_empty))) = true.
Proof.
  destruct (mu_held_for_whole_ConnectRouter env_ok 1 world_connected)
    as (Hget & _).
  destruct (mu_held_for_whole_ConnectRouter env_ok 1 world_empty)
    as (_ & _ & _ & Hdial).
  split.
  - apply (Hget healthy_conn). reflexivity.
  - apply (Hdial router_core).
    + intros conn Hconn. vm_compute in Hconn. discriminate Hconn.
    + reflexivity.
    + reflexivity.
Defined.

(** C4, as stated, fails: connecting router 1 from an empty connection
    map dials the device and runs the system-info command between
    [ms.mu.Lock()] and the deferred [ms.mu.Unlock()]. *)
Lemma ConnectRouter_dials_under_mu :
  emitted world_empty (snd (ConnectRouter env_ok 1 world_empty))
  = [EvMuLock; EvRepoGetByID 1; EvDial "10.0.0.1:8728";
     EvRunArgs 0%nat ["/system/resource/print"];
     EvRepoUpdateStatus 1 "online"; EvMuUnlock]
  ∧ network_under_mu false
      (emitted world_empty (snd (ConnectRouter env_ok 1 world_empty))) = true.
Proof. split; reflexivity. Qed.

End ConnectionManager.

(** ** The traffic monitor *)

Section TrafficMonitor.
Import models routeros services examples.

Lemma paired_filter (subs : list Subscription) (mons : list Monitor) (handle : nat) :
  (fun s => (s_handle s, s_router s, s_interface s)) <$> subs
  = (fun m => (m_listen m, m_router m, m_interface m)) <$> mons ->
  (fun s => (s_handle s, s_router s, s_interface s))
    <$> filter (fun s => s_handle s ≠ handle) subs
  = (fun m => (m_listen m, m_router m, m_interface m))
    <$> filter (fun m => m_listen m ≠ handle) mons.
Proof.
  revert mons. induction subs as [|s subs IH]; intros [|m mons] Heq;
    try done.
  rewrite !fmap_cons in Heq. injection Heq as Hh Hr Hi Heq.
  rewrite !filter_cons.
  destruct (decide (s_handle s ≠ handle)) as [Hs|Hs];
    destruct (decide (m_listen m ≠ handle)) as [Hm|Hm];
    try solve [exfalso; apply Hm; congruence | exfalso; apply Hs; congruence].
  - rewrite !fmap_cons. f_equal; [congruence|by apply IH].
  - by apply IH.
Qed.

Lemma paired_count (subs : list Subscription) (mons : list Monitor)
    (routerID : Z) (interfaceName : string) :
  (fun s => (s_handle s, s_router s, s_interface s)) <$> subs
  = (fun m => (m_listen m, m_router m, m_interface m)) <$> mons ->
  length (filter (fun s => s_router s = routerID ∧ s_interface s = interfaceName) subs)
  = length (filter (fun m => m_router m = routerID ∧ m_interface m = interfaceName) mons).
Proof.
  revert mons. induction subs as [|s subs IH]; intros [|m mons] Heq;
    try done.
  rewrite !fmap_cons in Heq. injection Heq as Hh Hr Hi Heq.
  rewrite !filter_cons.
  destruct (decide (s_router s = routerID ∧ s_interface s = interfaceName)) as [Hs|Hs];
    destruct (decide (m_router m = routerID ∧ m_interface m = interfaceName)) as [Hm|Hm];
    rewrite ?length_cons, ?(IH mons Heq); try done; exfalso.
  - apply Hm. destruct Hs. split; congruence.
  - apply Hs. destruct Hm. split; congruence.
Qed.

Lemma GetConnection_listens (env : Env) (routerID : Z) (w : World) :
  open_listens (snd (GetConnection env routerID w)) = open_listens w
  ∧ monitors (snd (GetConnection env routerID w)) = monitors w.
Proof.
  unfold GetConnection, lookup_connection.
  unfold with_mu_RLock, emit, get_world, mbind, mret, Go_bind, Go_ret. simpl.
  destruct (connections w !! routerID) as [conn|]; [done|].
  match goal with |- context [ConnectRouter ?e ?r ?w1] =>
    destruct (ConnectRouter_bracketed e r w1) as (Hl & Hm & _);
    destruct (ConnectRouter e r w1) as [[err|] w2] end; simpl in *; [done|].
  destruct (connections w2 !! routerID); done.
Qed.

Lemma Monitor_paired (env : Env) (routerID : Z) (interfaceName : string)
    (w : World) :
  paired w ->
  paired (snd (MonitorInterfaceTrafficWithContext env routerID interfaceName w)).
Proof.
  intros Hp. unfold MonitorInterfaceTrafficWithContext, mbind, Go_bind.
  destruct (GetConnection_listens env routerID w) as (Hl & Hm).
  destruct (GetConnection env routerID w) as [[conn|err] w1]; simpl in *;
    [|unfold paired; by rewrite Hl, Hm].
  unfold client_Listen, add_listen, spawn_monitor, emit, mbind, mret, Go_bind,
    Go_ret. simpl.
  destruct (listen_args env (Client conn) (monitor_words interfaceName)); simpl;
    unfold paired; simpl; rewrite Hl, Hm; [done|].
  rewrite !fmap_app. simpl. by rewrite Hp.
Qed.

Lemma call_paired (env : Env) (c : Call) (w : World) :
  paired w -> paired (snd (call env c w)).
Proof.
  intros Hp. destruct c as [routerID|routerID|routerID interfaceName|handle];
    unfold call, mbind, Go_bind, mret, Go_ret.
  - destruct (ConnectRouter_bracketed env routerID w) as (Hl & Hm & _).
    destruct (ConnectRouter env routerID w) as [r w1]. simpl in *.
    unfold paired. by rewrite Hl, Hm.
  - destruct (DisconnectRouter_bracketed env routerID w) as (Hl & Hm & _).
    destruct (DisconnectRouter env routerID w) as [r w1]. simpl in *.
    unfold paired. by rewrite Hl, Hm.
  - pose proof (Monitor_paired env routerID interfaceName w Hp) as Hp'.
    destruct (MonitorInterfaceTrafficWithContext env routerID interfaceName w).
    done.
  - unfold monitor_exit, drop_monitor, emit, get_world, mbind, mret, Go_bind,
      Go_ret. simpl. case_bool_decide; [|done].
    unfold paired. simpl. by apply paired_filter.
Qed.

Lemma calls_paired (env : Env) (cs : list Call) (w : World) :
  paired w -> paired (calls env cs w).
Proof.
  revert w. induction cs as [|c cs IH]; intros w Hp; [done|].
  simpl. apply IH. by apply call_paired.
Qed.

(** C1, as the code has it: there is no sharing of subscriptions. Every
    successful call of [MonitorInterfaceTrafficWithContext] opens a
    [Listen] of its own and its goroutine cancels it when it stops, so
    after any sequence of connect, disconnect, monitor and monitor-exit
    calls the number of open subscriptions of a (router, interface) pair
    equals the number of consumers registered for it (0 when there is
    none), and one more successful monitor call on the pair adds one to
    both. *)
Theorem one_subscription_per_consumer (env : Env) (cs : list Call) (w : World)
    (routerID : Z) (interfaceName : string) :
  open_listens w = [] ->
  monitors w = [] ->
  subscriptions (calls env cs w) routerID interfaceName
  = consumers (calls env cs w) routerID interfaceName
  ∧ (∀ conn,
       connections (calls env cs w) !! routerID = Some conn ->
       IsHealthy conn = true ->
       listen_args env (Client conn) (monitor_words interfaceName) = None ->
       let w' := calls env (cs ++ [CallMonitor routerID interfaceName]) w in
       subscriptions w' routerID interfaceName
       = S (subscriptions (calls env cs w) routerID interfaceName)
       ∧ consumers w' routerID interfaceName
         = S (consumers (calls env cs w) routerID interfaceName)).
Proof.
  intros Hl Hm. split.
  - apply paired_count. apply calls_paired. unfold paired. by rewrite Hl, Hm.
  - intros conn Hmap Hhealthy Hlisten w'. subst w'.
    unfold calls. rewrite foldl_app. fold (calls env cs w).
    generalize dependent (calls env cs w). intros w1 Hmap. simpl.
    unfold MonitorInterfaceTrafficWithContext, GetConnection, lookup_connection,
      check_healthy, client_Listen, add_listen, spawn_monitor.
    go_prim. rewrite Hmap. simpl. rewrite Hhealthy. simpl. rewrite Hlisten. simpl.
    unfold subscriptions, consumers. simpl.
    rewrite !filter_app, !length_app, !filter_cons. simpl.
    rewrite !decide_True by done. simpl. lia.
Qed.

Lemma one_subscription_per_consumer_witness :
  subscriptions (calls env_ok [CallMonitor 1 "ether1"; CallMonitorExit 0] world_empty)
    1 "ether1"
  = consumers (calls env_ok [CallMonitor 1 "ether1"; CallMonitorExit 0] world_empty)
      1 "ether1"
  ∧ subscriptions
      (calls env_ok ([CallConnect 1] ++ [CallMonitor 1 "ether1"]) world_empty)
      1 "ether1"
    = S (subscriptions (calls env_ok [CallConnect 1] world_empty) 1 "ether1").
Proof.
  split.
  - apply (one_subscription_per_consumer env_ok
             [CallMonitor 1 "ether1"; CallMonitorExit 0] world_empty 1 "ether1");
      reflexivity.
  - destruct (one_subscription_per_consumer env_ok [CallConnect 1] world_empty
                1 "ether1") as [_ Hadd]; [reflexivity|reflexivity|].
    apply (Hadd (mkConnection 1 router_core 0%nat 1000 true)); reflexivity.
Defined.

(** C1, as stated, fails: two monitor calls for router 1, interface
    "ether1", leave two open subscriptions for the one pair. *)
Lemma two_monitors_two_subscriptions :
  consumers (calls env_ok [CallMonitor 1 "ether1"; CallMonitor 1 "ether1"] world_empty)
    1 "ether1" = 2%nat
  ∧ subscriptions
      (calls env_ok [CallMonitor 1 "ether1"; CallMonitor 1 "ether1"] world_empty)
      1 "ether1" = 2%nat
  ∧ ¬ (subscriptions
         (calls env_ok [CallMonitor 1 "ether1"; CallMonitor 1 "ether1"] world_empty)
         1 "ether1" <= 1)%nat.
Proof.
  assert (H : subscriptions
                (calls env_ok [CallMonitor 1 "ether1"; CallMonitor 1 "ether1"]
                   world_empty) 1 "ether1" = 2%nat) by reflexivity.
  split; [reflexivity|]. split; [exact H|]. rewrite H. lia.
Qed.

(** *** The dispatch loop *)

Lemma monitor_loop_delivery (env : Env) (routerID : Z) (interfaceName : string)
    (input : list LoopInput) (d : Delivery) :
  d ∈ monitor_loop env routerID interfaceName input ->
  d_callback d
  = expected_callback env routerID interfaceName (d_sentence d) (d_ctx_done d).
Proof.
  induction input as [|[| |sentence ctx_done] rest IH]; simpl;
    try (intros H; by apply elem_of_nil in H).
  assert (Hhead : ∀ o l,
            o = expected_callback env routerID interfaceName sentence ctx_done ->
            (d ∈ l -> d_callback d
               = expected_callback env routerID interfaceName (d_sentence d)
                   (d_ctx_done d)) ->
            d ∈ mkDelivery sentence ctx_done o :: l ->
            d_callback d
            = expected_callback env routerID interfaceName (d_sentence d)
                (d_ctx_done d)).
  { intros o l Ho Hl [->|Hd]%elem_of_cons; [done|auto]. }
  unfold expected_callback in Hhead at 1.
  destruct (decide (Word sentence = "!re")) as [Hre|Hre].
  - rewrite (bool_decide_true _ Hre) in Hhead. rewrite Hre.
    rewrite !bool_decide_false by done.
    destruct ctx_done; simpl in *.
    + apply Hhead; [done|]. intros H'. by apply elem_of_nil in H'.
    + by apply Hhead.
  - rewrite (bool_decide_false _ Hre) in Hhead. simpl in Hhead.
    rewrite (bool_decide_true (Word sentence ≠ "!re")) by done.
    repeat case_bool_decide; by apply Hhead.
Qed.

Lemma monitor_loop_head (env : Env) (routerID : Z) (interfaceName : string)
    (sentence : Sentence) (ctx_done : bool) (rest : list LoopInput) :
  monitor_loop env routerID interfaceName (InSentence sentence ctx_done :: rest)
  = mkDelivery sentence ctx_done
      (expected_callback env routerID interfaceName sentence ctx_done)
    :: (if goes_on (InSentence sentence ctx_done)
        then monitor_loop env routerID interfaceName rest else []).
Proof.
  simpl. unfold expected_callback.
  destruct (decide (Word sentence = "!re")) as [Hre|Hre].
  - rewrite (bool_decide_true _ Hre). rewrite Hre.
    rewrite !bool_decide_false by done. by destruct ctx_done.
  - rewrite (bool_decide_false _ Hre).
    rewrite (bool_decide_true (Word sentence ≠ "!re")) by done.
    by repeat case_bool_decide.
Qed.

Lemma monitor_loop_goes_on (env : Env) (routerID : Z) (interfaceName : string)
    (pre rest : list LoopInput) :
  forallb goes_on pre = true ->
  ∃ ds, length ds = length pre
        ∧ monitor_loop env routerID interfaceName (pre ++ rest)
          = ds ++ monitor_loop env routerID interfaceName rest.
Proof.
  induction pre as [|x pre IH]; [by exists []|].
  intros [Hx Hpre]%andb_prop. destruct (IH Hpre) as (ds & Hlen & Heq).
  destruct x as [| |sentence ctx_done]; try done.
  exists (mkDelivery sentence ctx_done
            (expected_callback env routerID interfaceName sentence ctx_done)
          :: ds).
  split; [by simpl; rewrite Hlen|].
  by rewrite <- app_comm_cons, monitor_loop_head, Hx, Heq.
Qed.

Lemma monitor_loop_received (env : Env) (routerID : Z) (interfaceName : string)
    (input : list LoopInput) (d : Delivery) :
  d ∈ monitor_loop env routerID interfaceName input ->
  InSentence (d_sentence d) (d_ctx_done d) ∈ input.
Proof.
  induction input as [|[| |sentence ctx_done] rest IH];
    try (simpl; intros H; by apply elem_of_nil in H).
  rewrite monitor_loop_head. intros [->|Hd]%elem_of_cons.
  - apply list_elem_of_here.
  - apply list_elem_of_further. apply IH.
    destruct (goes_on _); [done|by apply elem_of_nil in Hd].
Qed.

(** C8, as the code has it. A sentence that the loop receives while it
    still runs (every iteration before it went on to the next one) is
    dispatched, in its turn: the callback is called for it exactly when
    its word is "!re" and the context is not done at the check that
    precedes the callback; "!trap", "!done" and every other word produce
    no sample. The sample handed to the callback carries the sentence's
    counter and bit-rate attributes as they are (the empty string for a
    missing attribute), with the router id and the interface name of the
    call. And the loop does nothing else: whatever it dispatched is a
    sentence of its input, treated in this way. *)
Theorem monitor_loop_forwards_re (env : Env) (routerID : Z)
    (interfaceName : string) (input : list LoopInput) :
  (∀ pre sentence ctx_done rest,
     input = pre ++ InSentence sentence ctx_done :: rest ->
     forallb goes_on pre = true ->
     ∃ callback,
       monitor_loop env routerID interfaceName input !! length pre
       = Some (mkDelivery sentence ctx_done callback)
       ∧ (is_Some callback <-> Word sentence = "!re" ∧ ctx_done = false)
       ∧ (Word sentence = "!re" -> ctx_done = false ->
          ∃ stats,
            callback = Some stats
            ∧ RxBytes stats = index (Map sentence) "rx-bytes"
            ∧ TxBytes stats = index (Map sentence) "tx-bytes"
            ∧ RxPackets stats = index (Map sentence) "rx-packets"
            ∧ TxPackets stats = index (Map sentence) "tx-packets"
            ∧ RxBitsPerSec stats = index (Map sentence) "rx-bits-per-second"
            ∧ TxBitsPerSec stats = index (Map sentence) "tx-bits-per-second"
            ∧ ts_RouterID stats = routerID
            ∧ InterfaceName stats = interfaceName))
  ∧ (∀ d, d ∈ monitor_loop env routerID interfaceName input ->
       InSentence (d_sentence d) (d_ctx_done d) ∈ input
       ∧ (is_Some (d_callback d)
          <-> Word (d_sentence d) = "!re" ∧ d_ctx_done d = false)
       ∧ (∀ stats, d_callback d = Some stats ->
            RxBytes stats = index (Map (d_sentence d)) "rx-bytes"
            ∧ TxBytes stats = index (Map (d_sentence d)) "tx-bytes"
            ∧ RxPackets stats = index (Map (d_sentence d)) "rx-packets"
            ∧ TxPackets stats = index (Map (d_sentence d)) "tx-packets"
            ∧ RxBitsPerSec stats = index (Map (d_sentence d)) "rx-bits-per-second"
            ∧ TxBitsPerSec stats = index (Map (d_sentence d)) "tx-bits-per-second"
            ∧ ts_RouterID stats = routerID
            ∧ InterfaceName stats = interfaceName)).
Proof.
  split.
  - intros pre sentence ctx_done rest -> Hpre.
    destruct (monitor_loop_goes_on env routerID interfaceName pre
                (InSentence sentence ctx_done :: rest) Hpre) as (ds & Hlen & ->).
    rewrite monitor_loop_head, <- Hlen.
    exists (expected_callback env routerID interfaceName sentence ctx_done).
    split; [by rewrite list_lookup_middle|].
    unfold expected_callback.
    case_bool_decide as Hword; destruct ctx_done; simpl.
    + split; [|done]. split; [intros [x [=]]|intros [_ [=]]].
    + split; [by split; [|eauto]|]. intros _ _. by eexists.
    + split; [|done]. split; [intros [x [=]]|intros [_ [=]]].
    + split; [|done]. split; [intros [x [=]]|by intros [? _]].
  - intros d Hd. split; [by eapply monitor_loop_received|].
    rewrite (monitor_loop_delivery _ _ _ _ _ Hd).
    unfold expected_callback.
    case_bool_decide as Hword; destruct (d_ctx_done d); simpl.
    + split; [|done]. split; [intros [x [=]]|intros [_ [=]]].
    + split; [|by intros stats [= <-]]. split; [done|eauto].
    + split; [|done]. split; [intros [x [=]]|intros [_ [=]]].
    + split; [|done]. split; [intros [x [=]]|by intros [? _]].
Qed.

Lemma monitor_loop_forwards_re_witness :
  ∃ stats,
    monitor_loop env_ok 1 "ether1"
      [InSentence (mkSentence "!trap" ∅) false; InSentence re_sentence false;
       InClosed] !! 1%nat
    = Some (mkDelivery re_sentence false (Some stats))
    ∧ RxBytes stats = "1500"
    ∧ TxBitsPerSec stats = "7200".
Proof.
  destruct (monitor_loop_forwards_re env_ok 1 "ether1"
              [InSentence (mkSentence "!trap" ∅) false;
               InSentence re_sentence false; InClosed]) as [Hreceived _].
  destruct (Hreceived [InSentence (mkSentence "!trap" ∅) false] re_sentence
              false [InClosed] eq_refl eq_refl) as (callback & Hat & _ & Hre).
  destruct (Hre eq_refl eq_refl)
    as (stats & -> & Hrx & _ & _ & _ & _ & Htx & _).
  exists stats. split; [exact Hat|]. split; [exact Hrx|exact Htx].
Defined.

Lemma monitor_loop_uncancelled (env : Env) (routerID : Z)
    (interfaceName : string) (sentences : list Sentence) :
  monitor_loop env routerID interfaceName
    ((fun s => InSentence s false) <$> sentences)
  = (fun s => mkDelivery s false
       (if bool_decide (Word s = "!re")
        then Some (stats_of env routerID interfaceName s) else None))
    <$> sentences.
Proof.
  induction sentences as [|s rest IH]; [done|].
  rewrite !fmap_cons. simpl. rewrite IH.
  repeat case_bool_decide; try done; congruence.
Qed.

(** C8, as stated, fails: a "!re" sentence that is received when the
    context has been cancelled reaches no callback. *)
Lemma cancelled_re_sentence_not_forwarded :
  Word re_sentence = "!re"
  ∧ monitor_loop env_ok 1 "ether1" [InSentence re_sentence true]
    = [mkDelivery re_sentence true None].
Proof. split; reflexivity. Qed.

End TrafficMonitor.

(** ** The session lock *)

Section SessionLockProperties.
Import SessionLock.

Lemma inside_cons (m : LockMode) (t : Thread) (ts : list Thread) :
  inside m (t :: ts) = (is_inside m t + inside m ts)%nat.
Proof.
  unfold inside, is_inside. rewrite filter_cons.
  destruct (decide _); done.
Qed.

Lemma inside_insert (m : LockMode) (ts : list Thread) (i : nat) (t t' : Thread) :
  ts !! i = Some t ->
  (inside m (<[i := t']> ts) + is_inside m t = inside m ts + is_inside m t')%nat.
Proof.
  revert i. induction ts as [|t0 ts IH]; intros [|i] Hi; simplify_eq/=.
  - rewrite !inside_cons. lia.
  - rewrite !inside_cons. specialize (IH i Hi). lia.
Qed.

Lemma inside_lookup (m : LockMode) (ts : list Thread) (i : nat) (t : Thread) :
  ts !! i = Some t -> (is_inside m t <= inside m ts)%nat.
Proof.
  revert i. induction ts as [|t0 ts IH]; intros [|i] Hi; simplify_eq/=;
    rewrite inside_cons; [lia|]. specialize (IH i Hi). lia.
Qed.

Lemma is_inside_cases (m : LockMode) (o : OneShot) :
  is_inside m (mkThread o Waiting) = 0%nat
  ∧ is_inside m (mkThread o Returned) = 0%nat
  ∧ is_inside m (mkThread o Executing)
    = (if decide (lock_mode o = m) then 1%nat else 0%nat).
Proof.
  unfold is_inside. simpl. repeat split.
  repeat case_decide; try done; exfalso; tauto.
Qed.

Lemma inside_lookup2 (m : LockMode) (ts : list Thread) (i j : nat)
    (ti tj : Thread) :
  i ≠ j -> ts !! i = Some ti -> ts !! j = Some tj ->
  (is_inside m ti + is_inside m tj <= inside m ts)%nat.
Proof.
  intros Hne Hi Hj.
  pose proof (inside_insert m ts i ti (mkThread (op ti) Returned) Hi) as Hins.
  assert (Hj' : <[i := mkThread (op ti) Returned]> ts !! j = Some tj).
  { by rewrite list_lookup_insert_ne. }
  pose proof (inside_lookup m _ j tj Hj') as Hle.
  assert (is_inside m (mkThread (op ti) Returned) = 0%nat) as Hz.
  { apply is_inside_cases. }
  lia.
Qed.

Lemma start_inv (ops : list OneShot) : lock_inv (start ops).
Proof.
  assert (H : ∀ m, inside m ((fun o => mkThread o Waiting) <$> ops) = 0%nat).
  { intros m. induction ops as [|o ops IH]; [done|].
    rewrite fmap_cons, inside_cons, IH.
    by destruct (is_inside_cases m o) as (-> & _). }
  unfold lock_inv, start. simpl. by rewrite !H.
Qed.

Lemma step_inv (i : nat) (s s' : Session) :
  lock_inv s -> step i s = Some s' -> lock_inv s'.
Proof.
  intros [Hr Hw]. unfold step.
  destruct (threads s !! i) as [[o ph]|] eqn:Hi; [|done].
  pose proof (inside_insert Shared (threads s) i (mkThread o ph)) as HS.
  pose proof (inside_insert Exclusive (threads s) i (mkThread o ph)) as HE.
  pose proof (is_inside_cases Shared o) as (HS1 & HS2 & HS3).
  pose proof (is_inside_cases Exclusive o) as (HE1 & HE2 & HE3).
  pose proof (inside_lookup Shared _ _ _ Hi) as HlS.
  pose proof (inside_lookup Exclusive _ _ _ Hi) as HlE.
  destruct ph; [| |done].
  - specialize (HS (mkThread o Executing) Hi).
    specialize (HE (mkThread o Executing) Hi).
    unfold acquire. destruct (lock_mode o) eqn:Hmode;
      destruct (writer (mu s)) eqn:Hwr; try done.
    + intros [= <-]. unfold lock_inv. simpl.
      rewrite decide_True in HS3 by done. rewrite decide_False in HE3 by done.
      split; lia.
    + destruct (readers (mu s)) eqn:Hrd; [|done].
      intros [= <-]. unfold lock_inv. simpl.
      rewrite decide_False in HS3 by done. rewrite decide_True in HE3 by done.
      repeat split; lia.
  - specialize (HS (mkThread o Returned) Hi).
    specialize (HE (mkThread o Returned) Hi).
    intros [= <-]. unfold lock_inv, release. simpl.
    destruct (lock_mode o) eqn:Hmode; simpl.
    + rewrite decide_True in HS3 by done. rewrite decide_False in HE3 by done.
      rewrite HS3 in HlS.
      destruct (writer (mu s)); split; lia.
    + rewrite decide_False in HS3 by done. rewrite decide_True in HE3 by done.
      rewrite HE3 in HlE.
      destruct (writer (mu s)); split; lia.
Qed.

Lemma run_inv (schedule : list nat) (s : Session) :
  lock_inv s -> lock_inv (run schedule s).
Proof.
  revert s. induction schedule as [|i schedule IH]; intros s Hinv; [done|].
  simpl. apply IH. destruct (step i s) as [s'|] eqn:Hstep; simpl; [|done].
  by apply (step_inv i s).
Qed.

(** C3, as the code has it: the session lock is a reader/writer lock. A
    method that takes it with [Lock] (a mutation, or the one-shot traffic
    sample) never executes its commands while another one-shot method
    executes on the same session; the listings take it with [RLock], and
    two calls that execute at the same time are always two listings. *)
Theorem exclusive_call_runs_alone (ops : list OneShot) (schedule : list nat)
    (i j : nat) :
  i ≠ j ->
  executing (run schedule (start ops)) i ->
  executing (run schedule (start ops)) j ->
  executing_in Shared (run schedule (start ops)) i
  ∧ executing_in Shared (run schedule (start ops)) j.
Proof.
  intros Hne [oi Hi] [oj Hj].
  pose proof (run_inv schedule (start ops) (start_inv ops)) as [Hr Hw].
  generalize dependent (run schedule (start ops)). intros s Hi Hj Hr Hw.
  pose proof (inside_lookup2 Shared _ _ _ _ _ Hne Hi Hj) as HS.
  pose proof (inside_lookup2 Exclusive _ _ _ _ _ Hne Hi Hj) as HE.
  pose proof (is_inside_cases Shared oi) as (_ & _ & HSi).
  pose proof (is_inside_cases Shared oj) as (_ & _ & HSj).
  pose proof (is_inside_cases Exclusive oi) as (_ & _ & HEi).
  pose proof (is_inside_cases Exclusive oj) as (_ & _ & HEj).
  rewrite HSi, HSj in HS. rewrite HEi, HEj in HE.
  unfold executing_in.
  destruct (lock_mode oi) eqn:Hmi; destruct (lock_mode oj) eqn:Hmj;
    [split; eauto| | |];
    exfalso; repeat (rewrite decide_True in * by done);
    repeat (rewrite decide_False in * by done);
    destruct (writer (mu s)); lia.
Qed.

Lemma exclusive_call_runs_alone_witness :
  executing_in Shared (run [0; 1]%nat (start [GetInterfaces; GetAddresses])) 0
  ∧ executing_in Shared (run [0; 1]%nat (start [GetInterfaces; GetAddresses])) 1.
Proof.
  apply (exclusive_call_runs_alone [GetInterfaces; GetAddresses] [0; 1]%nat 0 1).
  - lia.
  - exists GetInterfaces. reflexivity.
  - exists GetAddresses. reflexivity.
Defined.

(** C3, as stated, fails: an interface listing and a queue listing on one
    session both hold the lock and execute their commands at the same
    time. *)
Lemma two_listings_execute_together :
  run [0; 1]%nat (start [GetInterfaces; GetQueues])
  = mkSession (mkRWMutex 2 false)
      [mkThread GetInterfaces Executing; mkThread GetQueues Executing]
  ∧ executing (run [0; 1]%nat (start [GetInterfaces; GetQueues])) 0
  ∧ executing (run [0; 1]%nat (start [GetInterfaces; GetQueues])) 1.
Proof.
  split; [reflexivity|]. split.
  - exists GetInterfaces. reflexivity.
  - exists GetQueues. reflexivity.
Qed.

End SessionLockProperties.

(** ** The streaming handler *)

Section StreamingHandler.
Import handlers examples.









End StreamingHandler.
